(** * Task_app: the task list of [app/(tabs)/index.tsx]

    A shallow embedding of the state held by the [App] component and of its
    handlers ([handleAddTask], [handleSaveEdit], [handleToggleComplete],
    [handleDeleteTask], [handlePriorityChange], [loadTasks], [saveTasks],
    [registerForPushNotificationsAsync], [getPriorityColor]), followed by the
    properties of the task list that the specification states and by further
    properties of the handlers.

    Conventions.
    - A JavaScript string is its sequence of UTF-16 code units.
    - The platform services the handlers call (expo-notifications,
      AsyncStorage, [Date.now], [JSON.parse]) are not part of the repository:
      what they answer is an input of the handler that calls them, and what
      is asked of them is recorded in the list of effects the handler
      returns.
    - A promise that settles is [Fulfilled v] or [Rejected reason]. *)

From Stdlib Require Import ZArith NArith String Ascii DecimalString DecimalZ.
From stdpp Require Import base tactics option list.

Local Open Scope list_scope.

(** ** JavaScript strings *)

Definition JSString : Type := list N.

(** The code units of a literal of the source (ASCII only). *)
Definition str (s : string) : JSString :=
  N_of_ascii <$> list_ascii_of_string s.

(** [a === b] on strings. *)
Definition strict_eq (a b : JSString) : bool := bool_decide (a = b).

(** ECMAScript [WhiteSpace] and [LineTerminator] code units, the ones
    [String.prototype.trim] strips. *)
Definition isWhiteSpace (c : N) : bool :=
  ((9 <=? c) && (c <=? 13) || (c =? 32) || (c =? 160) || (c =? 5760)
   || (8192 <=? c) && (c <=? 8202) || (c =? 8232) || (c =? 8233)
   || (c =? 8239) || (c =? 8287) || (c =? 12288) || (c =? 65279))%N.

Fixpoint trimStart (s : JSString) : JSString :=
  match s with
  | c :: s' => if isWhiteSpace c then trimStart s' else s
  | [] => []
  end.

Definition trimEnd (s : JSString) : JSString := rev (trimStart (rev s)).

Definition trim (s : JSString) : JSString := trimEnd (trimStart s).

(** Truthiness of a string: every string but the empty one. *)
Definition truthy (s : JSString) : bool :=
  match s with [] => false | _ :: _ => true end.

(** [n.toString()] for an integer [n] of the range of [Date.now()]: the
    decimal digits, with a leading minus sign below zero. *)
Definition Number_toString (n : Z) : JSString :=
  str (NilEmpty.string_of_int (Z.to_int n)).

(** ** Promises *)

Inductive Settled (A : Type) : Type :=
| Fulfilled (value : A)
| Rejected (reason : JSString).
Arguments Fulfilled {A} value.
Arguments Rejected {A} reason.

(** ** The data model *)

Inductive Priority : Type := high | medium | low.

Record Task : Type := mkTask {
  id : JSString;
  text : JSString;
  completed : bool;
  priority : Priority;
  notificationId : option JSString
}.

(** The [useState] cells of [App]. *)
Record AppState : Type := mkApp {
  task : JSString;
  tasks : list Task;
  editInfo : option (JSString * JSString);
  editModalVisible : bool;
  editText : JSString
}.

Definition initialState : AppState :=
  {| task := []; tasks := []; editInfo := None;
     editModalVisible := false; editText := [] |}.

Definition setTask (s : JSString) (st : AppState) : AppState :=
  {| task := s; tasks := tasks st; editInfo := editInfo st;
     editModalVisible := editModalVisible st; editText := editText st |}.

Definition setTasks (l : list Task) (st : AppState) : AppState :=
  {| task := task st; tasks := l; editInfo := editInfo st;
     editModalVisible := editModalVisible st; editText := editText st |}.

Definition setEditInfo (i : option (JSString * JSString)) (st : AppState) : AppState :=
  {| task := task st; tasks := tasks st; editInfo := i;
     editModalVisible := editModalVisible st; editText := editText st |}.

Definition setEditModalVisible (b : bool) (st : AppState) : AppState :=
  {| task := task st; tasks := tasks st; editInfo := editInfo st;
     editModalVisible := b; editText := editText st |}.

Definition setEditText (s : JSString) (st : AppState) : AppState :=
  {| task := task st; tasks := tasks st; editInfo := editInfo st;
     editModalVisible := editModalVisible st; editText := s |}.

(** ** Effects *)

Record NotificationRequest : Type := mkRequest {
  title : JSString;
  body : JSString;
  seconds : Z;
  channelId : JSString
}.

Inductive Effect : Type :=
| ScheduleNotification (req : NotificationRequest)
| CancelScheduledNotification (handle : JSString)
| Announce (message : JSString)
| KeyboardDismiss
| ConsoleError (message : JSString).

(** What a handler leaves behind: the state after it, the calls it made, and
    whether it returned or its promise was rejected. *)
Record Outcome : Type := mkOutcome {
  after : AppState;
  effects : list Effect;
  completion : Settled unit
}.

Definition returned (st : AppState) (evs : list Effect) : Outcome :=
  {| after := st; effects := evs; completion := Fulfilled tt |}.

(** ** The notification helpers *)

(** The request [scheduleNotification(taskText)] passes on. *)
Definition scheduleRequest (taskText : JSString) : NotificationRequest :=
  {| title := str "Task Reminder";
     body := str "Time to complete: " ++ taskText;
     seconds := 10;
     channelId := str "task-reminders" |}.

(** [cancelNotification(notificationId)]: a call only for a truthy handle. *)
Definition cancelNotification (h : option JSString) : list Effect :=
  match h with
  | Some n => if truthy n then [CancelScheduledNotification n] else []
  | None => []
  end.

(** [tasks.find((t) => t.id === id)] *)
Definition findTask (i : JSString) (l : list Task) : option Task :=
  List.find (fun t => strict_eq (id t) i) l.

(** ** The handlers *)

Definition handleEditTask (i txt : JSString) (st : AppState) : AppState :=
  setEditModalVisible true (setEditText txt (setEditInfo (Some (i, txt)) st)).

Definition withText (s : JSString) (t : Task) : Task :=
  {| id := id t; text := s; completed := completed t;
     priority := priority t; notificationId := notificationId t |}.

Definition handleSaveEdit (st : AppState) : Outcome :=
  match editInfo st with
  | Some (i, _) =>
      if truthy (trim (editText st)) then
        returned
          (setEditModalVisible false (setEditText [] (setEditInfo None
             (setTasks
                ((fun t => if strict_eq (id t) i then withText (editText st) t else t)
                   <$> tasks st) st))))
          [Announce (str "Task updated")]
      else returned st []
  | None => returned st []
  end.

Definition handleCancelEdit (st : AppState) : AppState :=
  setEditModalVisible false (setEditText [] (setEditInfo None st)).

(** The object literal [handleAddTask] appends. *)
Definition newTask (now : Z) (txt : JSString) (h : JSString) : Task :=
  {| id := Number_toString now; text := txt; completed := false;
     priority := medium; notificationId := Some h |}.

(** The part of [handleAddTask] after the [await]: [seen] is the render the
    handler closed over, [cur] the state at the time the promise settled. *)
Definition handleAddTask_resume (seen : AppState) (now : Z) (h : JSString)
    (cur : AppState) : AppState :=
  setTask [] (setTasks (tasks seen ++ [newTask now (task seen) h]) cur).

(** [handleAddTask], the scheduling promise settling with [sched] before
    anything else happens, and [Date.now()] answering [now]. *)
Definition handleAddTask (sched : Settled JSString) (now : Z) (st : AppState) : Outcome :=
  if truthy (trim (task st)) then
    if negb (editModalVisible st) then
      match sched with
      | Fulfilled h =>
          returned (handleAddTask_resume st now h st)
            [ScheduleNotification (scheduleRequest (task st));
             Announce (str "Task added"); KeyboardDismiss]
      | Rejected e =>
          {| after := st;
             effects := [ScheduleNotification (scheduleRequest (task st))];
             completion := Rejected e |}
      end
    else returned st []
  else returned st [].

Definition toggled (h : option JSString) (t : Task) : Task :=
  {| id := id t; text := text t; completed := negb (completed t);
     priority := priority t; notificationId := h |}.

Definition toggleAll (i : JSString) (h : option JSString) (l : list Task) : list Task :=
  (fun t => if strict_eq (id t) i then toggled h t else t) <$> l.

(** The [then] callback of [handleToggleComplete]. *)
Definition handleToggleComplete_resume (seen : AppState) (i : JSString)
    (newNotificationId : JSString) (cur : AppState) : AppState :=
  setTasks (toggleAll i (Some newNotificationId) (tasks seen)) cur.

(** [handleToggleComplete(id)]; it returns at once, and a rejection of the
    scheduling promise reaches no handler. *)
Definition handleToggleComplete (i : JSString) (sched : Settled JSString)
    (st : AppState) : Outcome :=
  match findTask i (tasks st) with
  | Some taskToToggle =>
      if completed taskToToggle then
        match sched with
        | Fulfilled h =>
            returned (handleToggleComplete_resume st i h st)
              [ScheduleNotification (scheduleRequest (text taskToToggle));
               Announce (str "Task marked incomplete")]
        | Rejected _ =>
            returned st [ScheduleNotification (scheduleRequest (text taskToToggle))]
        end
      else
        returned (setTasks (toggleAll i None (tasks st)) st)
          (cancelNotification (notificationId taskToToggle)
             ++ [Announce (str "Task marked complete")])
  | None =>
      returned (setTasks (toggleAll i None (tasks st)) st)
        [Announce (str "Task marked complete")]
  end.

Definition handleDeleteTask (i : JSString) (st : AppState) : Outcome :=
  returned
    (setTasks (List.filter (fun t => negb (strict_eq (id t) i)) (tasks st)) st)
    (cancelNotification (findTask i (tasks st) ≫= notificationId)
       ++ [Announce (str "Task deleted")]).

Definition withPriority (p : Priority) (t : Task) : Task :=
  {| id := id t; text := text t; completed := completed t;
     priority := p; notificationId := notificationId t |}.

Definition handlePriorityChange (i : JSString) (p : Priority) (st : AppState) : Outcome :=
  returned
    (setTasks ((fun t => if strict_eq (id t) i then withPriority p t else t)
                 <$> tasks st) st)
    [].

(** [loadTasks]: [item] is what [AsyncStorage.getItem('tasks')] settles with
    ([None] for [null]), and [JSON_parse] answers [None] where [JSON.parse]
    throws. The [try] block catches both failures, so the promise of
    [loadTasks] is always fulfilled. *)
Definition loadTasks (JSON_parse : JSString -> option (list Task))
    (item : Settled (option JSString)) (st : AppState) : Outcome :=
  match item with
  | Fulfilled (Some savedTasks) =>
      if truthy savedTasks then
        match JSON_parse savedTasks with
        | Some l => returned (setTasks l st) []
        | None => returned st [ConsoleError (str "Failed to load tasks.")]
        end
      else returned st []
  | Fulfilled None => returned st []
  | Rejected _ => returned st [ConsoleError (str "Failed to load tasks.")]
  end.

(** ** What the user does, and runs of the application *)

Inductive UIEvent : Type :=
| ChangeText (s : JSString)
| PressAdd (sched : Settled JSString) (now : Z)
| PressEdit (i txt : JSString)
| ChangeEditText (s : JSString)
| PressSave
| PressCancel
| PressToggle (i : JSString) (sched : Settled JSString)
| SwipeDelete (i : JSString)
| ChoosePriority (i : JSString) (p : Priority).

Definition step (e : UIEvent) (st : AppState) : Outcome :=
  match e with
  | ChangeText s => returned (setTask s st) []
  | PressAdd sched now => handleAddTask sched now st
  | PressEdit i txt => returned (handleEditTask i txt st) []
  | ChangeEditText s => returned (setEditText s st) []
  | PressSave => handleSaveEdit st
  | PressCancel => returned (handleCancelEdit st) []
  | PressToggle i sched => handleToggleComplete i sched st
  | SwipeDelete i => handleDeleteTask i st
  | ChoosePriority i p => handlePriorityChange i p st
  end.

(** Every handler settles before the next event. *)
Definition run (evs : list UIEvent) (st : AppState) : AppState :=
  foldl (fun s e => after (step e s)) st evs.

(** The calls of [Date.now()] a handler makes, with what they answer: one call
    in [handleAddTask], after the scheduling promise was fulfilled. *)
Definition clockRead (e : UIEvent) (st : AppState) : list Z :=
  match e with
  | PressAdd (Fulfilled _) now =>
      if truthy (trim (task st)) && negb (editModalVisible st) then [now] else []
  | _ => []
  end.

(** What [Date.now()] answered in the course of a run, in order. *)
Fixpoint clockReadings (evs : list UIEvent) (st : AppState) : list Z :=
  match evs with
  | e :: evs' => clockRead e st ++ clockReadings evs' (after (step e st))
  | [] => []
  end.

(** ** The operations of the task list *)

(** Typing [txt] in the input and pressing Add. *)
Definition add (txt : JSString) (sched : Settled JSString) (now : Z)
    (st : AppState) : Outcome :=
  handleAddTask sched now (setTask txt st).

(** Pressing the pencil of the task [i], typing [newText] in the modal and
    pressing Save. *)
Definition edit (i newText : JSString) (st : AppState) : Outcome :=
  handleSaveEdit
    (setEditText newText
       (handleEditTask i (default [] (text <$> findTask i (tasks st))) st)).

Definition toggleComplete := handleToggleComplete.
Definition deleteTask := handleDeleteTask.
Definition setPriority := handlePriorityChange.

(** ** Predicates of the specification *)

Definition ids (st : AppState) : list JSString := id <$> tasks st.

(** A task is completed exactly when it holds no notification handle. *)
Definition reminder_matches_completion (t : Task) : Prop :=
  completed t = true <-> notificationId t = None.

(** [t'] is [t] but for its text, completion, priority and handle. *)
Definition same_id (t t' : Task) : Prop := id t' = id t.

(** The ids a run deletes, in order. *)
Fixpoint deletedIds (evs : list UIEvent) : list JSString :=
  match evs with
  | SwipeDelete i :: evs' => i :: deletedIds evs'
  | _ :: evs' => deletedIds evs'
  | [] => []
  end.

(** The id of [t] is none of [deleted]. *)
Definition notDeleted (deleted : list JSString) (t : Task) : bool :=
  negb (existsb (strict_eq (id t)) deleted).

(** [later] keeps the order of [before]: it starts with the tasks of
    [before] whose id is none of [deleted], one for one and in the order
    they had in [before], and goes on with tasks whose ids are some of
    [stamps], in the order of [stamps]. *)
Definition order_kept (deleted stamps : list JSString)
    (before later : list Task) : Prop :=
  exists survivors added,
    later = survivors ++ added
    /\ Forall2 same_id (List.filter (notDeleted deleted) before) survivors
    /\ sublist (id <$> added) stamps.

(** The list of tasks of [st] keeps handles and completion in agreement. *)
Definition handles_match (st : AppState) : Prop :=
  Forall reminder_matches_completion (tasks st).

(** ** States and runs used as examples *)

(** A state with one task, "Buy milk", not completed. *)
Definition oneTask : AppState :=
  after (add (str "Buy milk") (Fulfilled (str "n1")) 1000 initialState).

(** The same state with the edit modal open on that task. *)
Definition oneTaskEditing : AppState :=
  handleEditTask (str "1000") (str "Buy milk") oneTask.

(** Two tasks added and the first one completed, the clock moving on. *)
Definition tickingRun : list UIEvent :=
  [ChangeText (str "Buy milk"); PressAdd (Fulfilled (str "n1")) 1000;
   PressToggle (str "1000") (Rejected []);
   ChangeText (str "Walk dog"); PressAdd (Fulfilled (str "n2")) 1001;
   PressToggle (str "1000") (Fulfilled (str "n3"))].

(** The same run, [Date.now()] answering 1000 to both presses of Add. *)
Definition collidingRun : list UIEvent :=
  [ChangeText (str "Buy milk"); PressAdd (Fulfilled (str "n1")) 1000;
   PressToggle (str "1000") (Rejected []);
   ChangeText (str "Walk dog"); PressAdd (Fulfilled (str "n2")) 1000;
   PressToggle (str "1000") (Fulfilled (str "n3"))].

(** ** Handlers with a call in flight *)

(** A handler suspended on the scheduling promise. Its closure holds the
    state of the render it was created in, not the state at the time the
    promise settles. *)
Inductive InFlight : Type :=
| AddInFlight (seen : AppState)
| ToggleInFlight (seen : AppState) (i : JSString).

(** [handleAddTask] up to its [await]. *)
Definition handleAddTask_begin (st : AppState) : Outcome * option InFlight :=
  if truthy (trim (task st)) then
    if negb (editModalVisible st) then
      (returned st [ScheduleNotification (scheduleRequest (task st))],
       Some (AddInFlight st))
    else (returned st [], None)
  else (returned st [], None).

(** [handleToggleComplete] up to its return: the toggle to complete is done
    at once, the toggle back to incomplete waits for the scheduling promise. *)
Definition handleToggleComplete_begin (i : JSString) (st : AppState)
    : Outcome * option InFlight :=
  match findTask i (tasks st) with
  | Some taskToToggle =>
      if completed taskToToggle then
        (returned st [ScheduleNotification (scheduleRequest (text taskToToggle))],
         Some (ToggleInFlight st i))
      else
        (returned (setTasks (toggleAll i None (tasks st)) st)
           (cancelNotification (notificationId taskToToggle)
              ++ [Announce (str "Task marked complete")]),
         None)
  | None =>
      (returned (setTasks (toggleAll i None (tasks st)) st)
         [Announce (str "Task marked complete")],
       None)
  end.

(** The scheduling promise of a suspended handler settles with [sched] while
    the application is in the state [cur]. *)
Definition settle (p : InFlight) (sched : Settled JSString) (now : Z)
    (cur : AppState) : Outcome :=
  match p, sched with
  | AddInFlight seen, Fulfilled h =>
      returned (handleAddTask_resume seen now h cur)
        [Announce (str "Task added"); KeyboardDismiss]
  | AddInFlight _, Rejected e =>
      {| after := cur; effects := []; completion := Rejected e |}
  | ToggleInFlight seen i, Fulfilled h =>
      returned (handleToggleComplete_resume seen i h cur)
        [Announce (str "Task marked incomplete")]
  | ToggleInFlight _ _, Rejected _ => returned cur []
  end.

(** ** Saving the tasks *)

(** The key-value store behind AsyncStorage, when it works. *)
Definition Storage : Type := JSString -> option JSString.

Definition Storage_setItem (k v : JSString) (disk : Storage) : Storage :=
  fun k' => if strict_eq k' k then Some v else disk k'.

Definition Storage_getItem (k : JSString) (disk : Storage)
    : Settled (option JSString) :=
  Fulfilled (disk k).

(** The key and the value [saveTasks] passes to [AsyncStorage.setItem]. *)
Definition saveTasks_request (JSON_stringify : list Task -> JSString)
    (st : AppState) : JSString * JSString :=
  (str "tasks", JSON_stringify (tasks st)).

(** [saveTasks], the promise of [setItem] settling with [written]. *)
Definition saveTasks (written : Settled unit) (st : AppState) : Outcome :=
  match written with
  | Fulfilled _ => returned st []
  | Rejected _ => returned st [ConsoleError (str "Failed to save tasks.")]
  end.

(** The key [loadTasks] passes to [AsyncStorage.getItem]. *)
Definition loadTasks_key : JSString := str "tasks".

(** ** Setting up the notifications *)



(** ** Colours of the priorities *)

(** The string a priority is at run time. *)
Definition Priority_string (p : Priority) : JSString :=
  match p with
  | high => str "high"
  | medium => str "medium"
  | low => str "low"
  end.

Definition getPriorityColor (p : JSString) : JSString :=
  if strict_eq p (str "high") then str "#ff4d4d"
  else if strict_eq p (str "medium") then str "#ffa500"
  else if strict_eq p (str "low") then str "#4caf50"
  else str "#ccc".

(** ** More predicates *)

(** The text of every task has a trim that is not empty. *)
Definition texts_not_blank (st : AppState) : Prop :=
  Forall (fun t => truthy (trim (text t)) = true) (tasks st).

(** The handler made a call to [scheduleNotificationAsync]. *)
Definition callsScheduler (o : Outcome) : bool :=
  existsb (fun x => match x with ScheduleNotification _ => true | _ => false end)
    (effects o).

(** The handle the scheduling promise of an event is fulfilled with. *)
Definition answered (e : UIEvent) : option JSString :=
  match e with
  | PressAdd (Fulfilled h) _ => Some h
  | PressToggle _ (Fulfilled h) => Some h
  | _ => None
  end.

(** The handle a handler was given: the answer of its scheduling call, when
    it made the call and the call was fulfilled. *)
Definition handleGiven (e : UIEvent) (st : AppState) : list JSString :=
  if callsScheduler (step e st) then
    match answered e with Some h => [h] | None => [] end
  else [].

(** The handles the scheduling calls of a run returned, in order. *)
Fixpoint handlesGiven (evs : list UIEvent) (st : AppState) : list JSString :=
  match evs with
  | e :: evs' => handleGiven e st ++ handlesGiven evs' (after (step e st))
  | [] => []
  end.

(** The handles the tasks hold. *)
Definition handlesHeld (st : AppState) : list JSString :=
  omap notificationId (tasks st).

(** A state with two tasks, "Buy milk" and "Walk dog", none completed. *)
Definition twoTasks : AppState := run tickingRun initialState.

(** The state [twoTasks] after "Buy milk" was completed. *)
Definition twoTasksOneDone : AppState :=
  after (toggleComplete (str "1000") (Rejected []) twoTasks).

(** A state with one task, "Buy milk", completed. *)
Definition oneTaskDone : AppState :=
  after (toggleComplete (str "1000") (Rejected []) oneTask).

(** * Properties *)

(** ** Strings *)

Lemma strict_eq_true a b : strict_eq a b = true <-> a = b.
Proof. unfold strict_eq. apply bool_decide_eq_true. Qed.

Lemma strict_eq_false a b : strict_eq a b = false <-> a <> b.
Proof. unfold strict_eq. apply bool_decide_eq_false. Qed.

Lemma str_inj s1 s2 : str s1 = str s2 -> s1 = s2.
Proof.
  unfold str. intros H.
  rewrite <- (string_of_list_ascii_of_string s1),
          <- (string_of_list_ascii_of_string s2).
  f_equal. revert H.
  generalize (list_ascii_of_string s1) (list_ascii_of_string s2).
  induction l as [|a l IH]; intros [|b k] H; simplify_eq/=; try done.
  f_equal; [|by apply IH].
  rewrite <- (ascii_N_embedding a), <- (ascii_N_embedding b). congruence.
Qed.

Lemma Number_toString_inj n m : Number_toString n = Number_toString m -> n = m.
Proof.
  unfold Number_toString. intros H%str_inj.
  assert (Some (Z.to_int n) = Some (Z.to_int m)) as Hi.
  { rewrite <- !NilEmpty.isi. by rewrite H. }
  rewrite <- (DecimalZ.of_to n), <- (DecimalZ.of_to m). congruence.
Qed.

#[local] Instance Number_toString_Inj : Inj (=) (=) Number_toString.
Proof. intros n m. apply Number_toString_inj. Qed.

(** ** How the handlers change the list of tasks *)

Lemma findTask_None i l t : findTask i l = None -> t ∈ l -> id t <> i.
Proof.
  unfold findTask. intros Hnone Hin%list_elem_of_In.
  apply strict_eq_false. exact (find_none _ _ Hnone _ Hin).
Qed.

(** With distinct ids, [find] returns the only task that carries the id. *)
Lemma findTask_unique i l t0 t :
  NoDup (id <$> l) -> findTask i l = Some t0 -> t ∈ l -> id t = i -> t = t0.
Proof.
  induction l as [|a l IH]; [done|].
  rewrite fmap_cons, NoDup_cons. intros [Hnotin Hnd] Hfind Hin Hid.
  unfold findTask in *. simpl in Hfind.
  destruct (strict_eq (id a) i) eqn:Ha.
  - apply strict_eq_true in Ha. simplify_eq.
    apply elem_of_cons in Hin as [->|Hin]; [done|].
    destruct Hnotin. rewrite <- Hid. by apply list_elem_of_fmap_2.
  - apply strict_eq_false in Ha.
    apply elem_of_cons in Hin as [->|Hin]; [done|]. by apply IH.
Qed.

Lemma ids_fmap_same (f : Task -> Task) (l : list Task) :
  (forall t, id (f t) = id t) -> id <$> (f <$> l) = id <$> l.
Proof.
  intros Hf. rewrite <- list_fmap_compose. apply list_fmap_ext. intros ? t _. apply Hf.
Qed.

Lemma filter_sublist {A} (p : A -> bool) (l : list A) : sublist (List.filter p l) l.
Proof.
  induction l as [|a l IH]; simpl; [constructor|].
  destruct (p a); by constructor.
Qed.

Lemma ids_toggleAll i h l : id <$> toggleAll i h l = id <$> l.
Proof. apply ids_fmap_same. intros t. by destruct (strict_eq (id t) i). Qed.

(** The ids after a step: ids that were there, in their order, followed by
    the stamp of the clock when the step read it. *)
Lemma step_ids e st :
  sublist (ids (after (step e st)))
          (ids st ++ (Number_toString <$> clockRead e st)).
Proof.
  unfold ids. destruct e; simpl; rewrite ?app_nil_r; try done.
  - unfold handleAddTask.
    destruct sched as [h|r]; simpl; rewrite ?app_nil_r.
    + destruct (truthy _); simpl; rewrite ?app_nil_r; [|done].
      destruct (negb _); simpl; rewrite ?app_nil_r; [|done].
      by rewrite fmap_app.
    + destruct (truthy _); [|done]. by destruct (negb _).
  - unfold handleSaveEdit.
    destruct (editInfo st) as [[i ?]|]; [|done].
    destruct (truthy _); [|done]. simpl.
    rewrite ids_fmap_same; [done|].
    intros t. by destruct (strict_eq (id t) i).
  - unfold handleToggleComplete.
    destruct (findTask i (tasks st)) as [t0|]; simpl.
    + destruct (completed t0); [destruct sched|]; simpl;
        by rewrite ?ids_toggleAll.
    + by rewrite ids_toggleAll.
  - apply fmap_sublist, filter_sublist.
  - rewrite ids_fmap_same; [done|].
    intros t. by destruct (strict_eq (id t) i).
Qed.

(** ** Handles and completion *)

Lemma handles_match_fmap (f : Task -> Task) (l : list Task) :
  (forall t, t ∈ l -> reminder_matches_completion t ->
             reminder_matches_completion (f t)) ->
  Forall reminder_matches_completion l ->
  Forall reminder_matches_completion (f <$> l).
Proof.
  intros Hf Hl. apply Forall_fmap, Forall_forall. intros t Hin.
  apply Hf; [done|]. by eapply Forall_forall in Hl.
Qed.

Lemma toggleAll_handles_match i l t0 h :
  NoDup (id <$> l) -> findTask i l = Some t0 ->
  completed t0 = bool_decide (h <> None) ->
  Forall reminder_matches_completion l ->
  Forall reminder_matches_completion (toggleAll i h l).
Proof.
  intros Hnd Hfind Hc Hl. apply Forall_fmap, Forall_forall. intros t Hin. simpl.
  destruct (strict_eq (id t) i) eqn:Hid.
  - apply strict_eq_true in Hid.
    rewrite (findTask_unique i l t0 t Hnd Hfind Hin Hid).
    unfold reminder_matches_completion. simpl. rewrite Hc.
    destruct h; simpl; split; intros; done.
  - by eapply Forall_forall in Hl.
Qed.

Lemma toggleAll_absent i h l : findTask i l = None -> toggleAll i h l = l.
Proof.
  intros Hnone. unfold toggleAll.
  rewrite <- (list_fmap_id l) at 2. apply list_fmap_ext. intros ? t Hin%list_elem_of_lookup_2.
  apply (findTask_None i l t Hnone) in Hin.
  apply strict_eq_false in Hin. by rewrite Hin.
Qed.

(** A step keeps handles and completion in agreement as long as the ids it
    finds are distinct. *)
Lemma step_handles_match e st :
  NoDup (ids st) -> handles_match st -> handles_match (after (step e st)).
Proof.
  unfold handles_match, ids. intros Hnd Hok. destruct e; simpl; try done.
  - unfold handleAddTask.
    destruct (truthy _); [|done]. destruct (negb _); [|done].
    destruct sched as [h|r]; [|done]. simpl.
    apply Forall_app. split; [done|].
    apply Forall_singleton. unfold reminder_matches_completion. by simpl.
  - unfold handleSaveEdit.
    destruct (editInfo st) as [[i ?]|]; [|done].
    destruct (truthy _); [|done]. simpl.
    apply handles_match_fmap; [|done].
    intros t _ Ht. by destruct (strict_eq (id t) i).
  - unfold handleToggleComplete.
    destruct (findTask i (tasks st)) as [t0|] eqn:Hfind; simpl.
    + destruct (completed t0) eqn:Hc; [destruct sched as [h|r]|]; simpl; try done.
      * by apply (toggleAll_handles_match i _ t0).
      * by apply (toggleAll_handles_match i _ t0).
    + by rewrite toggleAll_absent.
  - apply Forall_forall. intros t [Hin _]%list_elem_of_In%filter_In.
    apply list_elem_of_In in Hin. by eapply Forall_forall in Hok.
  - apply handles_match_fmap; [|done].
    intros t _ Ht. by destruct (strict_eq (id t) i).
Qed.

(** The shared invariant of a run: distinct ids, and handles that agree with
    completion, as long as no Add is stamped with an id already in use. *)
Lemma run_invariant evs st :
  handles_match st ->
  NoDup (ids st ++ (Number_toString <$> clockReadings evs st)) ->
  handles_match (run evs st) /\ NoDup (ids (run evs st)).
Proof.
  revert st. induction evs as [|e evs IH]; intros st Hok Hnd.
  - simpl in *. by rewrite app_nil_r in Hnd.
  - change (run (e :: evs) st) with (run evs (after (step e st))).
    assert (NoDup (ids st)) as Hids by (by apply NoDup_app in Hnd as [? _]).
    apply IH; [by apply step_handles_match|].
    eapply sublist_NoDup; [exact Hnd|].
    simpl. rewrite fmap_app, app_assoc.
    apply sublist_app; [apply step_ids|done].
Qed.

(** ** Order of the tasks *)

Lemma same_id_refl t : same_id t t.
Proof. done. Qed.

Lemma Forall2_same_id_refl l : Forall2 same_id l l.
Proof. apply Forall_Forall2_diag, Forall_forall. intros; apply same_id_refl. Qed.

Lemma filter_notDeleted_nil l : List.filter (notDeleted []) l = l.
Proof. induction l as [|a l IH]; [done|]. simpl. by rewrite IH. Qed.

Lemma order_kept_nil l : order_kept [] [] l l.
Proof.
  exists l, []. split; [by rewrite app_nil_r|]. split; [|done].
  rewrite filter_notDeleted_nil. apply Forall2_same_id_refl.
Qed.

(** The three ways a step changes the list: it rewrites tasks and keeps
    their ids, it appends a task, or it removes the tasks of an id. *)
Lemma order_kept_fmap (f : Task -> Task) deleted stamps l later :
  (forall t, id (f t) = id t) ->
  order_kept deleted stamps (f <$> l) later -> order_kept deleted stamps l later.
Proof.
  intros Hf (s & a & -> & HF & Hsub). exists s, a. split; [done|]. split; [|done].
  clear Hsub. revert s HF. induction l as [|t l IH]; intros s HF; [done|].
  simpl in *. unfold notDeleted in *. rewrite Hf in HF.
  destruct (negb (existsb (strict_eq (id t)) deleted)); [|by apply IH].
  apply Forall2_cons_inv_l in HF as (y & s' & Hy & HF & ->).
  constructor; [|by apply IH]. unfold same_id in *. by rewrite Hy, Hf.
Qed.

Lemma order_kept_snoc deleted stamps l t later :
  order_kept deleted stamps (l ++ [t]) later ->
  order_kept deleted (id t :: stamps) l later.
Proof.
  intros (s & a & -> & HF & Hsub). rewrite List.filter_app in HF.
  apply Forall2_app_inv_l in HF as (s1 & s2 & HF1 & HF2 & ->).
  exists s1, (s2 ++ a). split; [by rewrite app_assoc|]. split; [done|].
  rewrite fmap_app. simpl in HF2. destruct (notDeleted deleted t).
  - apply Forall2_cons_inv_l in HF2 as (y & s' & Hy & HF2 & ->).
    apply Forall2_nil_inv_l in HF2 as ->. simpl. rewrite Hy. by constructor.
  - apply Forall2_nil_inv_l in HF2 as ->. simpl. by constructor.
Qed.

Lemma order_kept_delete deleted stamps i l later :
  order_kept deleted stamps
    (List.filter (fun t => negb (strict_eq (id t) i)) l) later ->
  order_kept (i :: deleted) stamps l later.
Proof.
  intros (s & a & -> & HF & Hsub). exists s, a. split; [done|]. split; [|done].
  replace (List.filter (notDeleted (i :: deleted)) l)
    with (List.filter (notDeleted deleted)
            (List.filter (fun t => negb (strict_eq (id t) i)) l)); [done|].
  clear. symmetry. induction l as [|t l IH]; [done|].
  cbn [List.filter].
  assert (notDeleted (i :: deleted) t
          = negb (strict_eq (id t) i) && notDeleted deleted t) as ->.
  { unfold notDeleted. cbn [existsb]. by destruct (strict_eq (id t) i). }
  destruct (strict_eq (id t) i); cbn [negb andb List.filter]; [exact IH|].
  destruct (notDeleted deleted t); by rewrite IH.
Qed.

(** No run reorders the tasks it finds: the tasks that are not deleted stay
    in front, in the order they had, and the tasks the run adds follow them
    in the order of their clock stamps. *)
Lemma run_order_kept evs st :
  order_kept (deletedIds evs) (Number_toString <$> clockReadings evs st)
    (tasks st) (tasks (run evs st)).
Proof.
  revert st. induction evs as [|e evs IH]; intros st; [apply order_kept_nil|].
  change (run (e :: evs) st) with (run evs (after (step e st))).
  specialize (IH (after (step e st))).
  destruct e; simpl in *; try exact IH.
  - unfold handleAddTask in *.
    destruct sched as [h|r].
    + destruct (truthy (trim (task st))); simpl in *; [|exact IH].
      destruct (negb (editModalVisible st)); simpl in *; [|exact IH].
      by apply (order_kept_snoc _ _ _ (newTask now (task st) h)).
    + destruct (truthy (trim (task st))); simpl in *; [|exact IH].
      by destruct (negb (editModalVisible st)).
  - unfold handleSaveEdit in *.
    destruct (editInfo st) as [[i ?]|]; [|exact IH].
    destruct (truthy _); [|exact IH]. simpl in IH.
    eapply order_kept_fmap; [|exact IH].
    intros t. simpl. by destruct (strict_eq (id t) i).
  - assert (forall h later,
              order_kept (deletedIds evs) later (toggleAll i h (tasks st))
                (tasks (run evs (setTasks (toggleAll i h (tasks st)) st))) ->
              order_kept (deletedIds evs) later (tasks st)
                (tasks (run evs (setTasks (toggleAll i h (tasks st)) st)))) as Ht.
    { intros h later. apply order_kept_fmap.
      intros t. simpl. by destruct (strict_eq (id t) i). }
    unfold handleToggleComplete in *.
    destruct (findTask i (tasks st)) as [t0|]; [|by apply Ht].
    destruct (completed t0); [destruct sched|]; simpl in *;
      [by apply Ht|exact IH|by apply Ht].
  - by apply order_kept_delete.
  - eapply order_kept_fmap; [|exact IH].
    intros t. simpl. by destruct (strict_eq (id t) i).
Qed.

(** The order is really fixed: two tasks of different ids cannot change
    places. *)
Lemma order_kept_no_swap (a b : Task) :
  id a <> id b -> ~ order_kept [] [] [a; b] [b; a].
Proof.
  intros Hne (s & added & Heq & HF & Hsub). simpl in HF.
  apply Forall2_cons_inv_l in HF as (y & s' & Hy & HF & ->).
  apply Forall2_cons_inv_l in HF as (z & s'' & Hz & HF & ->).
  apply Forall2_nil_inv_l in HF as ->.
  injection Heq as <- <- _. by apply Hne.
Qed.

(** * The claims *)

(** C1, as amended: from a list of tasks in which a task is completed exactly
    when it has no notification handle, every run of settled operations ends
    in such a list, provided the ids stay distinct: the ids of the tasks at
    the start and the stamps [Date.now().toString()] that the run gives to
    the tasks it appends are pairwise different. *)
Theorem C1_handles_match_completion (evs : list UIEvent) (st : AppState) :
  handles_match st ->
  NoDup (ids st ++ (Number_toString <$> clockReadings evs st)) ->
  handles_match (run evs st).
Proof. intros Hok Hnd. by apply run_invariant. Qed.

Lemma C1_handles_match_completion_witness :
  handles_match initialState
  /\ NoDup (ids initialState
            ++ (Number_toString <$> clockReadings tickingRun initialState))
  /\ handles_match (run tickingRun initialState).
Proof.
  assert (handles_match initialState) as H1 by constructor.
  assert (NoDup (ids initialState
                   ++ (Number_toString <$> clockReadings tickingRun initialState)))
    as H2 by (apply (bool_decide_unpack _); vm_compute; exact I).
  split; [exact H1|]. split; [exact H2|].
  exact (C1_handles_match_completion tickingRun initialState H1 H2).
Defined.

(** C1, as stated, fails: when [Date.now()] answers the same to two presses
    of Add, the second of them after the first task was completed, the two
    tasks share an id, and the next toggle of that id leaves the second task
    completed with a notification handle. *)
Lemma C1_counterexample : ~ handles_match (run collidingRun initialState).
Proof.
  unfold handles_match. vm_compute. intros H.
  apply Forall_cons_1 in H as [_ H]. apply Forall_cons_1 in H as [[H _] _].
  specialize (H eq_refl). discriminate H.
Qed.

(** C3, as amended: starting from the empty list, the ids of the tasks are
    pairwise different after every run of settled operations in which
    [Date.now()] answered differently every time an Add read it. *)
Theorem C3_ids_unique_with_distinct_clock (evs : list UIEvent) :
  NoDup (clockReadings evs initialState) -> NoDup (ids (run evs initialState)).
Proof.
  intros Hnd. apply run_invariant; [constructor|].
  simpl. apply (NoDup_fmap_2 Number_toString). exact Hnd.
Qed.

Lemma C3_ids_unique_with_distinct_clock_witness :
  NoDup (clockReadings tickingRun initialState)
  /\ NoDup (ids (run tickingRun initialState)).
Proof.
  assert (NoDup (clockReadings tickingRun initialState)) as H
    by (apply (bool_decide_unpack _); vm_compute; exact I).
  split; [exact H|]. exact (C3_ids_unique_with_distinct_clock tickingRun H).
Defined.

(** C3, as stated, fails: two presses of Add to which [Date.now()] answers
    1000 leave two tasks with the id "1000". *)
Lemma C3_counterexample :
  ~ NoDup (ids (run [ChangeText (str "Buy milk"); PressAdd (Fulfilled (str "n1")) 1000;
                     ChangeText (str "Walk dog"); PressAdd (Fulfilled (str "n2")) 1000]
                    initialState)).
Proof.
  vm_compute. intros H. apply NoDup_cons in H as [H _].
  apply H. constructor.
Qed.

(** ** Adding a task *)

Lemma add_appends txt h now st :
  truthy (trim txt) = true -> editModalVisible st = false ->
  add txt (Fulfilled h) now st
  = returned (setTask [] (setTasks (tasks st ++ [newTask now txt h]) (setTask txt st)))
      [ScheduleNotification (scheduleRequest txt);
       Announce (str "Task added"); KeyboardDismiss].
Proof.
  intros Htxt Hmodal. unfold add, handleAddTask. simpl.
  by rewrite Htxt, Hmodal.
Qed.

(** C2, as amended: for an input whose trim is not empty, typed while the
    edit modal is closed, a scheduling call that fails stops the add
    operation: the list of tasks is left as it was, nothing is appended, and
    the failure reaches the caller as the rejection of the promise of
    [handleAddTask]. *)
Theorem C2_add_stops_when_scheduling_fails
    (txt reason : JSString) (now : Z) (st : AppState) :
  truthy (trim txt) = true -> editModalVisible st = false ->
  tasks (after (add txt (Rejected reason) now st)) = tasks st
  /\ effects (add txt (Rejected reason) now st)
     = [ScheduleNotification (scheduleRequest txt)]
  /\ completion (add txt (Rejected reason) now st) = Rejected reason.
Proof.
  intros Htxt Hmodal. unfold add, handleAddTask. simpl.
  by rewrite Htxt, Hmodal.
Qed.

Lemma C2_add_stops_when_scheduling_fails_witness :
  tasks (after (add (str "Buy milk") (Rejected (str "denied")) 1000 initialState)) = []
  /\ effects (add (str "Buy milk") (Rejected (str "denied")) 1000 initialState)
     = [ScheduleNotification (scheduleRequest (str "Buy milk"))]
  /\ completion (add (str "Buy milk") (Rejected (str "denied")) 1000 initialState)
     = Rejected (str "denied").
Proof.
  apply (C2_add_stops_when_scheduling_fails
           (str "Buy milk") (str "denied") 1000 initialState);
    vm_compute; reflexivity.
Defined.

(** C2, as stated, fails: with the scheduling call rejected, "Buy milk" is not
    appended to the empty list, and the promise of the handler is rejected. *)
Lemma C2_counterexample :
  ~ ((exists t,
        tasks (after (add (str "Buy milk") (Rejected (str "denied")) 1000 initialState))
        = tasks initialState ++ [t] /\ notificationId t = None)
     /\ completion (add (str "Buy milk") (Rejected (str "denied")) 1000 initialState)
        = Fulfilled tt).
Proof. intros [_ H]. vm_compute in H. discriminate H. Qed.

(** C6, as amended: for an input whose trim is not empty, typed while the
    edit modal is closed, and a scheduling call that succeeds, add asks for
    one reminder for that text and appends one task at the end of the list,
    with that text, not completed and of medium priority; the tasks before it
    are as they were, and whatever is done later leaves the tasks in the
    order they had: after any later run the list starts with the tasks that
    were there and whose id was not deleted since, one for one and in the
    order they had, and goes on with the tasks added since, in the order in
    which they were added. *)
Theorem C6_add_appends_at_the_end
    (txt h : JSString) (now : Z) (st : AppState) :
  truthy (trim txt) = true -> editModalVisible st = false ->
  (exists t,
     tasks (after (add txt (Fulfilled h) now st)) = tasks st ++ [t]
     /\ text t = txt /\ completed t = false /\ priority t = medium)
  /\ effects (add txt (Fulfilled h) now st)
     = [ScheduleNotification (scheduleRequest txt);
        Announce (str "Task added"); KeyboardDismiss]
  /\ forall evs,
       order_kept (deletedIds evs)
         (Number_toString <$> clockReadings evs (after (add txt (Fulfilled h) now st)))
         (tasks (after (add txt (Fulfilled h) now st)))
         (tasks (run evs (after (add txt (Fulfilled h) now st)))).
Proof.
  intros Htxt Hmodal. rewrite (add_appends txt h now st Htxt Hmodal). simpl.
  split; [by exists (newTask now txt h)|]. split; [done|].
  intros evs.
  apply (run_order_kept evs
           (setTask [] (setTasks (tasks st ++ [newTask now txt h]) (setTask txt st)))).
Qed.

Lemma C6_add_appends_at_the_end_witness :
  (exists t,
     tasks (after (add (str "Walk dog") (Fulfilled (str "n2")) 1001 oneTask))
     = tasks oneTask ++ [t]
     /\ text t = str "Walk dog" /\ completed t = false /\ priority t = medium)
  /\ effects (add (str "Walk dog") (Fulfilled (str "n2")) 1001 oneTask)
     = [ScheduleNotification (scheduleRequest (str "Walk dog"));
        Announce (str "Task added"); KeyboardDismiss]
  /\ forall evs,
       order_kept (deletedIds evs)
         (Number_toString <$> clockReadings evs
            (after (add (str "Walk dog") (Fulfilled (str "n2")) 1001 oneTask)))
         (tasks (after (add (str "Walk dog") (Fulfilled (str "n2")) 1001 oneTask)))
         (tasks (run evs (after (add (str "Walk dog") (Fulfilled (str "n2")) 1001 oneTask)))).
Proof.
  apply (C6_add_appends_at_the_end (str "Walk dog") (str "n2") 1001 oneTask);
    vm_compute; reflexivity.
Defined.

(** C6, as stated, fails: while the edit modal is open, add appends nothing,
    whatever the text. *)
Lemma C6_counterexample :
  truthy (trim (str "Walk dog")) = true
  /\ ~ exists t,
         tasks (after (add (str "Walk dog") (Fulfilled (str "n2")) 1001 oneTaskEditing))
         = tasks oneTaskEditing ++ [t].
Proof.
  split; [reflexivity|]. intros [t H]. vm_compute in H. discriminate H.
Qed.

(** C7: for an input whose trim is empty, add does nothing to the list of
    tasks: nothing is appended, the length is the same, no call is made and
    the handler returns without an error. *)
Theorem C7_add_of_blank_text_is_a_no_op
    (txt : JSString) (sched : Settled JSString) (now : Z) (st : AppState) :
  trim txt = [] ->
  tasks (after (add txt sched now st)) = tasks st
  /\ length (tasks (after (add txt sched now st))) = length (tasks st)
  /\ effects (add txt sched now st) = []
  /\ completion (add txt sched now st) = Fulfilled tt.
Proof.
  intros Htxt. unfold add, handleAddTask. simpl. by rewrite Htxt.
Qed.

Lemma C7_add_of_blank_text_is_a_no_op_witness :
  tasks (after (add (str "   ") (Fulfilled (str "n2")) 1001 oneTask)) = tasks oneTask
  /\ length (tasks (after (add (str "   ") (Fulfilled (str "n2")) 1001 oneTask)))
     = length (tasks oneTask)
  /\ effects (add (str "   ") (Fulfilled (str "n2")) 1001 oneTask) = []
  /\ completion (add (str "   ") (Fulfilled (str "n2")) 1001 oneTask) = Fulfilled tt.
Proof.
  apply (C7_add_of_blank_text_is_a_no_op (str "   ") (Fulfilled (str "n2")) 1001 oneTask).
  vm_compute; reflexivity.
Defined.

(** C9: while the edit modal is visible, add does nothing, also for a text
    whose trim is not empty: no task is appended and no reminder is asked
    for. *)
Theorem C9_add_is_gated_by_the_edit_modal
    (txt : JSString) (sched : Settled JSString) (now : Z) (st : AppState) :
  editModalVisible st = true ->
  tasks (after (add txt sched now st)) = tasks st
  /\ effects (add txt sched now st) = []
  /\ completion (add txt sched now st) = Fulfilled tt.
Proof.
  intros Hmodal. unfold add, handleAddTask. simpl. rewrite Hmodal.
  by destruct (truthy (trim txt)).
Qed.

Lemma C9_add_is_gated_by_the_edit_modal_witness :
  truthy (trim (str "Walk dog")) = true
  /\ tasks (after (add (str "Walk dog") (Fulfilled (str "n2")) 1001 oneTaskEditing))
     = tasks oneTaskEditing
  /\ effects (add (str "Walk dog") (Fulfilled (str "n2")) 1001 oneTaskEditing) = []
  /\ completion (add (str "Walk dog") (Fulfilled (str "n2")) 1001 oneTaskEditing)
     = Fulfilled tt.
Proof.
  split; [reflexivity|].
  apply (C9_add_is_gated_by_the_edit_modal
           (str "Walk dog") (Fulfilled (str "n2")) 1001 oneTaskEditing).
  vm_compute; reflexivity.
Defined.

(** ** Editing a task *)

Lemma edit_blank i newText st :
  trim newText = [] -> tasks (after (edit i newText st)) = tasks st.
Proof.
  intros Htxt. unfold edit, handleSaveEdit, handleEditTask. simpl.
  by rewrite Htxt.
Qed.

Lemma edit_replaces_text i newText st :
  truthy (trim newText) = true ->
  tasks (after (edit i newText st))
  = (fun t => if strict_eq (id t) i then withText newText t else t) <$> tasks st.
Proof.
  intros Htxt. unfold edit, handleSaveEdit, handleEditTask. simpl.
  by rewrite Htxt.
Qed.

(** C5: an edit whose new text has an empty trim leaves the list of tasks as
    it was; an edit whose new text has a non-empty trim keeps the length and
    the order of the list, gives the task of that id the new text and keeps
    its id, completion, priority and notification handle, and leaves every
    other task as it was. *)
Theorem C5_edit_changes_the_text_only (i newText : JSString) (st : AppState) :
  (trim newText = [] ->
     tasks (after (edit i newText st)) = tasks st
     /\ effects (edit i newText st) = [])
  /\ (truthy (trim newText) = true ->
        Forall2
          (fun t t' =>
             if strict_eq (id t) i then
               text t' = newText /\ id t' = id t /\ completed t' = completed t
               /\ priority t' = priority t /\ notificationId t' = notificationId t
             else t' = t)
          (tasks st) (tasks (after (edit i newText st)))).
Proof.
  split.
  - intros Htxt. split; [by apply edit_blank|].
    unfold edit, handleSaveEdit, handleEditTask. simpl. by rewrite Htxt.
  - intros Htxt. rewrite (edit_replaces_text i newText st Htxt).
    apply Forall2_fmap_r, Forall_Forall2_diag, Forall_forall. intros t _.
    simpl. destruct (strict_eq (id t) i) eqn:Hid; rewrite ?Hid; [|done].
    by repeat split.
Qed.

Lemma C5_edit_changes_the_text_only_witness :
  (tasks (after (edit (str "1000") (str "  ") oneTask)) = tasks oneTask
   /\ effects (edit (str "1000") (str "  ") oneTask) = [])
  /\ Forall2
       (fun t t' =>
          if strict_eq (id t) (str "1000") then
            text t' = str "Buy oat milk" /\ id t' = id t /\ completed t' = completed t
            /\ priority t' = priority t /\ notificationId t' = notificationId t
          else t' = t)
       (tasks oneTask) (tasks (after (edit (str "1000") (str "Buy oat milk") oneTask))).
Proof.
  split.
  - apply (C5_edit_changes_the_text_only (str "1000") (str "  ") oneTask).
    vm_compute; reflexivity.
  - apply (C5_edit_changes_the_text_only (str "1000") (str "Buy oat milk") oneTask).
    vm_compute; reflexivity.
Defined.

(** C10: add and edit keep the input as it was typed. For an input whose
    trim is not empty, the task that add appends (edit modal closed,
    scheduling call fulfilled) has the input as its text, and after an edit
    every task of the edited id has the input as its text, leading and
    trailing white space included. *)
Theorem C10_text_is_stored_untrimmed (txt : JSString) (st : AppState) :
  truthy (trim txt) = true ->
  (forall h now, editModalVisible st = false ->
     text <$> last (tasks (after (add txt (Fulfilled h) now st))) = Some txt)
  /\ (forall i k t, tasks st !! k = Some t -> id t = i ->
        text <$> (tasks (after (edit i txt st)) !! k) = Some txt).
Proof.
  intros Htxt. split.
  - intros h now Hmodal. rewrite (add_appends txt h now st Htxt Hmodal). simpl.
    by rewrite last_snoc.
  - intros i k t Hk Hid. rewrite (edit_replaces_text i txt st Htxt).
    rewrite list_lookup_fmap, Hk. simpl.
    apply strict_eq_true in Hid. by rewrite Hid.
Qed.

Lemma C10_text_is_stored_untrimmed_witness :
  trim (str "  Walk dog ") = str "Walk dog"
  /\ text <$> last (tasks (after (add (str "  Walk dog ") (Fulfilled (str "n2")) 1001 oneTask)))
     = Some (str "  Walk dog ")
  /\ text <$> (tasks (after (edit (str "1000") (str "  Walk dog ") oneTask)) !! 0%nat)
     = Some (str "  Walk dog ").
Proof.
  split; [reflexivity|].
  destruct (C10_text_is_stored_untrimmed (str "  Walk dog ") oneTask eq_refl) as [Hadd Hedit].
  split.
  - exact (Hadd (str "n2") 1001%Z eq_refl).
  - exact (Hedit (str "1000") 0%nat (newTask 1000%Z (str "Buy milk") (str "n1")) eq_refl eq_refl).
Defined.

(** ** Toggling a task *)

Lemma findTask_toggleAll i h l :
  findTask i (toggleAll i h l) = toggled h <$> findTask i l.
Proof.
  unfold findTask, toggleAll. induction l as [|a l IH]; [done|].
  simpl. destruct (strict_eq (id a) i) eqn:Ha; simpl; by rewrite Ha.
Qed.

(** Two toggles of an id that is there, the scheduling call of the toggle back
    to incomplete being fulfilled with [h]. *)
Lemma toggle_twice i s1 s2 h st t0 :
  findTask i (tasks st) = Some t0 ->
  (if completed t0 then s1 else s2) = Fulfilled h ->
  tasks (after (toggleComplete i s2 (after (toggleComplete i s1 st))))
  = toggleAll i (if completed t0 then None else Some h)
      (toggleAll i (if completed t0 then Some h else None) (tasks st)).
Proof.
  intros Hfind Hsched. unfold toggleComplete.
  unfold handleToggleComplete at 2. rewrite Hfind.
  destruct (completed t0) eqn:Hc; subst; simpl;
    unfold handleToggleComplete; simpl;
    rewrite findTask_toggleAll, Hfind; simpl; by rewrite Hc.
Qed.

(** C4, as amended: for a task id that is there, two toggles in a row, each
    settled before the next event, give every task of that id back the
    completion it had and leave its id, text and priority and the rest of
    the list as they were, provided the scheduling call of the toggle that
    goes back to incomplete is fulfilled. The first task of that id, the one
    the handler looks up, then holds the handle this call returned if it is
    incomplete at the end, whatever handle it held before, and none if it is
    completed at the end; every other task of the same id is given the same
    handle as the first. So when the ids are distinct, a task that is
    incomplete at the end holds the new handle and a task that is completed
    at the end holds none. *)
Theorem C4_toggle_twice
    (i : JSString) (s1 s2 : Settled JSString) (h : JSString)
    (st : AppState) (t0 : Task) :
  findTask i (tasks st) = Some t0 ->
  (if completed t0 then s1 else s2) = Fulfilled h ->
  Forall2
    (fun t t' =>
       if strict_eq (id t) i then
         completed t' = completed t
         /\ notificationId t' = (if completed t0 then None else Some h)
         /\ id t' = id t /\ text t' = text t /\ priority t' = priority t
       else t' = t)
    (tasks st)
    (tasks (after (toggleComplete i s2 (after (toggleComplete i s1 st)))))
  /\ (exists t0',
        findTask i (tasks (after (toggleComplete i s2 (after (toggleComplete i s1 st)))))
        = Some t0'
        /\ completed t0' = completed t0
        /\ notificationId t0' = (if completed t0' then None else Some h))
  /\ (NoDup (ids st) ->
      Forall2
        (fun t t' =>
           if strict_eq (id t) i then
             completed t' = completed t
             /\ notificationId t' = (if completed t' then None else Some h)
           else t' = t)
        (tasks st)
        (tasks (after (toggleComplete i s2 (after (toggleComplete i s1 st)))))).
Proof.
  intros Hfind Hsched. rewrite (toggle_twice i s1 s2 h st t0 Hfind Hsched).
  split; [|split].
  - unfold toggleAll. rewrite <- list_fmap_compose.
    apply Forall2_fmap_r, Forall_Forall2_diag, Forall_forall. intros t _. simpl.
    destruct (strict_eq (id t) i) eqn:Hid; simpl; rewrite Hid; [|done].
    unfold toggled. simpl. by rewrite negb_involutive.
  - rewrite !findTask_toggleAll, Hfind. simpl. eexists. split; [done|].
    simpl. by rewrite negb_involutive.
  - intros Hnd. unfold toggleAll. rewrite <- list_fmap_compose.
    apply Forall2_fmap_r, Forall_Forall2_diag, Forall_forall. intros t Hin. simpl.
    destruct (strict_eq (id t) i) eqn:Hid; simpl; rewrite Hid; [|done].
    apply strict_eq_true in Hid.
    rewrite (findTask_unique i (tasks st) t0 t Hnd Hfind Hin Hid).
    unfold toggled. simpl. by rewrite negb_involutive.
Qed.

Lemma C4_toggle_twice_witness :
  Forall2
    (fun t t' =>
       if strict_eq (id t) (str "1000") then
         completed t' = completed t
         /\ notificationId t' = Some (str "n2")
         /\ id t' = id t /\ text t' = text t /\ priority t' = priority t
       else t' = t)
    (tasks oneTask)
    (tasks (after (toggleComplete (str "1000") (Fulfilled (str "n2"))
                     (after (toggleComplete (str "1000") (Rejected []) oneTask)))))
  /\ (exists t0',
        findTask (str "1000")
          (tasks (after (toggleComplete (str "1000") (Fulfilled (str "n2"))
                           (after (toggleComplete (str "1000") (Rejected []) oneTask)))))
        = Some t0'
        /\ completed t0' = false
        /\ notificationId t0' = (if completed t0' then None else Some (str "n2")))
  /\ Forall2
       (fun t t' =>
          if strict_eq (id t) (str "1000") then
            completed t' = completed t
            /\ notificationId t' = (if completed t' then None else Some (str "n2"))
          else t' = t)
       (tasks oneTask)
       (tasks (after (toggleComplete (str "1000") (Fulfilled (str "n2"))
                        (after (toggleComplete (str "1000") (Rejected []) oneTask))))).
Proof.
  destruct (C4_toggle_twice (str "1000") (Rejected []) (Fulfilled (str "n2")) (str "n2")
              oneTask (newTask 1000%Z (str "Buy milk") (str "n1")) eq_refl eq_refl)
    as (H1 & H2 & H3).
  split; [exact H1|]. split; [exact H2|].
  apply H3. apply (bool_decide_unpack _). vm_compute. exact I.
Defined.

(** C4, as stated, fails: when the scheduling call of the second toggle is
    rejected, the task "1000", incomplete at the start, is completed after
    the two toggles. *)
Lemma C4_counterexample :
  completed <$> findTask (str "1000") (tasks oneTask) = Some false
  /\ completed <$> findTask (str "1000")
       (tasks (after (toggleComplete (str "1000") (Rejected (str "denied"))
                        (after (toggleComplete (str "1000") (Rejected (str "denied"))
                                  oneTask)))))
     <> completed <$> findTask (str "1000") (tasks oneTask).
Proof. split; [reflexivity|]. vm_compute. discriminate. Qed.

(** ** Loading the tasks *)

(** C8: at the start, when the store holds nothing under the key, or holds a
    value that [JSON.parse] rejects, or cannot be read, the list of tasks is
    the empty list and the promise of [loadTasks] is fulfilled. *)
Theorem C8_load_falls_back_to_empty
    (JSON_parse : JSString -> option (list Task)) (item : Settled (option JSString)) :
  (item = Fulfilled None
   \/ (exists s, item = Fulfilled (Some s) /\ JSON_parse s = None)
   \/ (exists reason, item = Rejected reason)) ->
  tasks (after (loadTasks JSON_parse item initialState)) = []
  /\ completion (loadTasks JSON_parse item initialState) = Fulfilled tt.
Proof.
  intros [->|[(s & -> & Hparse)|(reason & ->)]]; simpl; [done| |done].
  destruct (truthy s); [|done]. by rewrite Hparse.
Qed.

Lemma C8_load_falls_back_to_empty_witness :
  tasks (after (loadTasks (fun _ => None) (Fulfilled (Some (str "[{oops"))) initialState)) = []
  /\ completion (loadTasks (fun _ => None) (Fulfilled (Some (str "[{oops"))) initialState)
     = Fulfilled tt.
Proof.
  apply (C8_load_falls_back_to_empty (fun _ => None) (Fulfilled (Some (str "[{oops")))).
  right; left. exists (str "[{oops"). split; reflexivity.
Defined.

(** * Further properties of the handlers *)

(** ** Deleting a task *)

Lemma findTask_filter_out i l :
  findTask i (List.filter (fun t => negb (strict_eq (id t) i)) l) = None.
Proof.
  unfold findTask. induction l as [|a l IH]; [done|]. simpl.
  destruct (strict_eq (id a) i) eqn:Ha; simpl; [done|]. by rewrite Ha.
Qed.

Lemma filter_out_absent i l :
  findTask i l = None -> List.filter (fun t => negb (strict_eq (id t) i)) l = l.
Proof.
  unfold findTask. induction l as [|a l IH]; [done|]. simpl.
  destruct (strict_eq (id a) i) eqn:Ha; [done|]. simpl. intros H. by rewrite IH.
Qed.

(** X1: [handleDeleteTask] removes every task of the given id and nothing
    else: what is left are the tasks of the other ids, unchanged and in the
    order they had, and the id is not found any more. *)
Theorem X1_delete_removes_the_id (i : JSString) (st : AppState) :
  (forall t, t ∈ tasks (after (handleDeleteTask i st))
             <-> t ∈ tasks st /\ id t <> i)
  /\ sublist (tasks (after (handleDeleteTask i st))) (tasks st)
  /\ findTask i (tasks (after (handleDeleteTask i st))) = None.
Proof.
  simpl. split; [|split; [apply filter_sublist|apply findTask_filter_out]].
  intros t. rewrite !list_elem_of_In, filter_In, negb_true_iff, strict_eq_false.
  done.
Qed.

Lemma delete_absent i st :
  findTask i (tasks st) = None ->
  tasks (after (handleDeleteTask i st)) = tasks st
  /\ effects (handleDeleteTask i st) = [Announce (str "Task deleted")].
Proof.
  intros Hnone. unfold handleDeleteTask. simpl. rewrite Hnone. simpl.
  by rewrite filter_out_absent.
Qed.

(** X2: deleting an id that no task carries leaves the list as it was and
    cancels no notification; the handler still announces a deletion. *)
Theorem X2_delete_of_an_absent_id (i : JSString) (st : AppState) :
  findTask i (tasks st) = None ->
  tasks (after (handleDeleteTask i st)) = tasks st
  /\ effects (handleDeleteTask i st) = [Announce (str "Task deleted")]
  /\ completion (handleDeleteTask i st) = Fulfilled tt.
Proof.
  intros Hnone. destruct (delete_absent i st Hnone) as [H1 H2]. by rewrite H1, H2.
Qed.

Lemma X2_delete_of_an_absent_id_witness :
  tasks (after (handleDeleteTask (str "4242") twoTasks)) = tasks twoTasks
  /\ effects (handleDeleteTask (str "4242") twoTasks) = [Announce (str "Task deleted")]
  /\ completion (handleDeleteTask (str "4242") twoTasks) = Fulfilled tt.
Proof.
  apply (X2_delete_of_an_absent_id (str "4242") twoTasks). vm_compute; reflexivity.
Defined.

(** X3: deleting the same id again changes nothing more and cancels
    nothing. *)
Theorem X3_delete_twice (i : JSString) (st : AppState) :
  tasks (after (handleDeleteTask i (after (handleDeleteTask i st))))
  = tasks (after (handleDeleteTask i st))
  /\ effects (handleDeleteTask i (after (handleDeleteTask i st)))
     = [Announce (str "Task deleted")].
Proof.
  apply (delete_absent i (after (handleDeleteTask i st))).
  simpl. apply findTask_filter_out.
Qed.

(** X4: when the ids are distinct and handles agree with completion,
    deleting a task that is not completed cancels the notification it holds
    (one call, and none for the empty handle), and deleting a completed task
    cancels nothing. *)
Theorem X4_delete_cancels_the_reminder (i : JSString) (st : AppState) (t : Task) :
  handles_match st -> NoDup (ids st) -> t ∈ tasks st -> id t = i ->
  effects (handleDeleteTask i st)
  = match notificationId t with
    | Some h => if completed t then [] else
                  if truthy h then [CancelScheduledNotification h] else []
    | None => []
    end ++ [Announce (str "Task deleted")].
Proof.
  intros Hok Hnd Hin Hid. unfold handleDeleteTask. simpl.
  destruct (findTask i (tasks st)) as [t0|] eqn:Hfind.
  - rewrite <- (findTask_unique i (tasks st) t0 t Hnd Hfind Hin Hid). simpl.
    unfold handles_match in Hok. rewrite Forall_forall in Hok.
    specialize (Hok t Hin). unfold reminder_matches_completion in Hok.
    destruct (notificationId t) as [h|] eqn:Hh; simpl; [|done].
    destruct (completed t); [|done].
    destruct Hok as [Hok _]. by specialize (Hok eq_refl).
  - by destruct (findTask_None i (tasks st) t Hfind Hin).
Qed.

Lemma X4_delete_cancels_the_reminder_witness :
  effects (handleDeleteTask (str "1001") twoTasks)
  = [CancelScheduledNotification (str "n2"); Announce (str "Task deleted")].
Proof.
  assert (handles_match twoTasks) as H1
    by (apply run_invariant; [constructor|];
        apply (bool_decide_unpack _); vm_compute; exact I).
  assert (NoDup (ids twoTasks)) as H2
    by (apply (bool_decide_unpack _); vm_compute; exact I).
  assert (newTask 1001 (str "Walk dog") (str "n2") ∈ tasks twoTasks) as H3
    by (vm_compute; right; left).
  exact (X4_delete_cancels_the_reminder (str "1001") twoTasks
           (newTask 1001 (str "Walk dog") (str "n2")) H1 H2 H3 eq_refl).
Defined.

Lemma findTask_Some i l t :
  findTask i l = Some t -> t ∈ l /\ id t = i.
Proof.
  unfold findTask. intros [Hin Heq]%find_some.
  split; [by apply list_elem_of_In | by apply strict_eq_true].
Qed.

(** ** Changing a priority *)

(** X5: [handlePriorityChange] gives the tasks of the given id the new
    priority and keeps their id, text, completion and notification handle;
    every other task is as it was, and no call is made. *)
Theorem X5_priority_change_frame (i : JSString) (p : Priority) (st : AppState) :
  Forall2
    (fun t t' =>
       if strict_eq (id t) i then
         priority t' = p /\ id t' = id t /\ text t' = text t
         /\ completed t' = completed t /\ notificationId t' = notificationId t
       else t' = t)
    (tasks st) (tasks (after (handlePriorityChange i p st)))
  /\ effects (handlePriorityChange i p st) = [].
Proof.
  split; [|done]. simpl.
  apply Forall2_fmap_r, Forall_Forall2_diag, Forall_forall. intros t _.
  simpl. destruct (strict_eq (id t) i) eqn:Hid; rewrite ?Hid; [|done].
  by repeat split.
Qed.

(** X6: of two changes of priority of the same id, the second one wins: the
    list is the one the second change alone gives. *)
Theorem X6_priority_change_last_wins (i : JSString) (p q : Priority) (st : AppState) :
  tasks (after (handlePriorityChange i q (after (handlePriorityChange i p st))))
  = tasks (after (handlePriorityChange i q st)).
Proof.
  simpl. rewrite <- list_fmap_compose. apply list_fmap_ext. intros ? t _. simpl.
  destruct (strict_eq (id t) i) eqn:Hid; simpl; by rewrite Hid.
Qed.

(** ** One toggle *)

(** X7: toggling an id that no task carries leaves the list as it was and
    makes no call to the notifications, whatever the scheduling service would
    answer; the handler still announces a completion. *)
Theorem X7_toggle_of_an_absent_id
    (i : JSString) (sched : Settled JSString) (st : AppState) :
  findTask i (tasks st) = None ->
  tasks (after (handleToggleComplete i sched st)) = tasks st
  /\ effects (handleToggleComplete i sched st) = [Announce (str "Task marked complete")]
  /\ completion (handleToggleComplete i sched st) = Fulfilled tt.
Proof.
  intros Hnone. unfold handleToggleComplete. rewrite Hnone. simpl.
  by rewrite toggleAll_absent.
Qed.

Lemma X7_toggle_of_an_absent_id_witness :
  tasks (after (handleToggleComplete (str "4242") (Fulfilled (str "n9")) twoTasks))
  = tasks twoTasks
  /\ effects (handleToggleComplete (str "4242") (Fulfilled (str "n9")) twoTasks)
     = [Announce (str "Task marked complete")]
  /\ completion (handleToggleComplete (str "4242") (Fulfilled (str "n9")) twoTasks)
     = Fulfilled tt.
Proof.
  apply (X7_toggle_of_an_absent_id (str "4242") (Fulfilled (str "n9")) twoTasks).
  vm_compute; reflexivity.
Defined.

(** X8: toggling an id whose first task is not completed does not wait for
    the notifications: whatever the scheduling service would answer, that
    task is completed at once, every task of the id has its completion
    flipped and its handle dropped while its id, text and priority are kept,
    the tasks of other ids are as they were, no reminder is asked for, and
    the handle the first task held is cancelled when it is not empty. *)
Theorem X8_toggle_to_complete
    (i : JSString) (sched : Settled JSString) (st : AppState) (t0 : Task) :
  findTask i (tasks st) = Some t0 -> completed t0 = false ->
  Forall2
    (fun t t' =>
       if strict_eq (id t) i then
         completed t' = negb (completed t) /\ notificationId t' = None
         /\ id t' = id t /\ text t' = text t /\ priority t' = priority t
       else t' = t)
    (tasks st) (tasks (after (handleToggleComplete i sched st)))
  /\ completed <$> findTask i (tasks (after (handleToggleComplete i sched st)))
     = Some true
  /\ effects (handleToggleComplete i sched st)
     = cancelNotification (notificationId t0) ++ [Announce (str "Task marked complete")]
  /\ (forall h, notificationId t0 = Some h -> h <> [] ->
        CancelScheduledNotification h ∈ effects (handleToggleComplete i sched st)).
Proof.
  intros Hfind Hc. unfold handleToggleComplete. rewrite Hfind, Hc. simpl.
  split; [|split; [|split; [done|]]].
  - apply Forall2_fmap_r, Forall_Forall2_diag, Forall_forall. intros t Hin.
    simpl. destruct (strict_eq (id t) i) eqn:Hid; rewrite ?Hid; [|done].
    by repeat split.
  - rewrite findTask_toggleAll, Hfind. simpl. by rewrite Hc.
  - intros h Hh Hne. rewrite Hh. simpl. destruct h; [done|]. simpl. by left.
Qed.

Lemma X8_toggle_to_complete_witness :
  completed <$> findTask (str "1001")
    (tasks (after (handleToggleComplete (str "1001") (Rejected (str "denied")) twoTasks)))
  = Some true
  /\ effects (handleToggleComplete (str "1001") (Rejected (str "denied")) twoTasks)
     = [CancelScheduledNotification (str "n2"); Announce (str "Task marked complete")].
Proof.
  destruct (X8_toggle_to_complete (str "1001") (Rejected (str "denied")) twoTasks
              (newTask 1001 (str "Walk dog") (str "n2")) eq_refl eq_refl)
    as (_ & H2 & H3 & _).
  split; [exact H2|exact H3].
Defined.

(** X9: toggling an id whose first task is completed, when the scheduling
    call fails, changes nothing: the state is the one before, the task stays
    completed, one reminder was asked for with the text of that task, and
    the handler returns without an error. *)
Theorem X9_toggle_back_fails_silently
    (i reason : JSString) (st : AppState) (t0 : Task) :
  findTask i (tasks st) = Some t0 -> completed t0 = true ->
  after (handleToggleComplete i (Rejected reason) st) = st
  /\ effects (handleToggleComplete i (Rejected reason) st)
     = [ScheduleNotification (scheduleRequest (text t0))]
  /\ completion (handleToggleComplete i (Rejected reason) st) = Fulfilled tt.
Proof.
  intros Hfind Hc. unfold handleToggleComplete. by rewrite Hfind, Hc.
Qed.

Lemma X9_toggle_back_fails_silently_witness :
  after (handleToggleComplete (str "1000") (Rejected (str "denied")) oneTaskDone)
  = oneTaskDone
  /\ effects (handleToggleComplete (str "1000") (Rejected (str "denied")) oneTaskDone)
     = [ScheduleNotification (scheduleRequest (str "Buy milk"))]
  /\ completion (handleToggleComplete (str "1000") (Rejected (str "denied")) oneTaskDone)
     = Fulfilled tt.
Proof.
  exact (X9_toggle_back_fails_silently (str "1000") (str "denied") oneTaskDone
           (toggled None (newTask 1000 (str "Buy milk") (str "n1"))) eq_refl eq_refl).
Defined.

(** X10: toggling an id whose first task is completed, when the scheduling
    call is fulfilled with [h], flips the completion of every task of the
    id and gives it the handle [h], keeps its id, text and priority and the
    tasks of other ids, asks for one reminder with the text of the first
    task, and cancels nothing. *)
Theorem X10_toggle_back_to_incomplete
    (i h : JSString) (st : AppState) (t0 : Task) :
  findTask i (tasks st) = Some t0 -> completed t0 = true ->
  Forall2
    (fun t t' =>
       if strict_eq (id t) i then
         completed t' = negb (completed t) /\ notificationId t' = Some h
         /\ id t' = id t /\ text t' = text t /\ priority t' = priority t
       else t' = t)
    (tasks st) (tasks (after (handleToggleComplete i (Fulfilled h) st)))
  /\ findTask i (tasks (after (handleToggleComplete i (Fulfilled h) st)))
     = Some (toggled (Some h) t0)
  /\ effects (handleToggleComplete i (Fulfilled h) st)
     = [ScheduleNotification (scheduleRequest (text t0));
        Announce (str "Task marked incomplete")].
Proof.
  intros Hfind Hc. unfold handleToggleComplete. rewrite Hfind, Hc. simpl.
  split; [|split; [|done]].
  - apply Forall2_fmap_r, Forall_Forall2_diag, Forall_forall. intros t Hin.
    simpl. destruct (strict_eq (id t) i) eqn:Hid; rewrite ?Hid; [|done].
    by repeat split.
  - by rewrite findTask_toggleAll, Hfind.
Qed.

Lemma X10_toggle_back_to_incomplete_witness :
  findTask (str "1000")
    (tasks (after (handleToggleComplete (str "1000") (Fulfilled (str "n5")) oneTaskDone)))
  = Some (newTask 1000 (str "Buy milk") (str "n5"))
  /\ effects (handleToggleComplete (str "1000") (Fulfilled (str "n5")) oneTaskDone)
     = [ScheduleNotification (scheduleRequest (str "Buy milk"));
        Announce (str "Task marked incomplete")].
Proof.
  destruct (X10_toggle_back_to_incomplete (str "1000") (str "n5") oneTaskDone
              (toggled None (newTask 1000 (str "Buy milk") (str "n1"))) eq_refl eq_refl)
    as (_ & H2 & H3).
  split; [exact H2|exact H3].
Defined.

(** ** The edit modal *)

(** X11: opening the edit modal on a task, typing in it and cancelling leaves
    the list of tasks as it was and the modal closed; from a state in which
    no edit is going on, the whole state is back as it was. *)
Theorem X11_cancel_discards_the_edit (i txt typed : JSString) (st : AppState) :
  tasks (handleCancelEdit (setEditText typed (handleEditTask i txt st))) = tasks st
  /\ editModalVisible (handleCancelEdit (setEditText typed (handleEditTask i txt st)))
     = false
  /\ (editInfo st = None -> editModalVisible st = false -> editText st = [] ->
      handleCancelEdit (setEditText typed (handleEditTask i txt st)) = st).
Proof.
  split; [done|]. split; [done|].
  destruct st as [t l ei vis et]. simpl. intros -> -> ->. done.
Qed.

Lemma X11_cancel_discards_the_edit_witness :
  handleCancelEdit (setEditText (str "Buy oat milk")
                      (handleEditTask (str "1000") (str "Buy milk") oneTask))
  = oneTask.
Proof.
  exact (proj2 (proj2 (X11_cancel_discards_the_edit
                         (str "1000") (str "Buy milk") (str "Buy oat milk") oneTask))
           eq_refl eq_refl eq_refl).
Defined.

(** X12: Save closes the modal exactly when it saves. With an edit going on
    and a text whose trim is not empty, the modal is closed and the edit is
    forgotten; with a text whose trim is empty, or with no edit going on,
    Save changes nothing at all and makes no announcement. *)
Theorem X12_save_closes_the_modal_when_it_saves (st : AppState) :
  (editInfo st <> None -> truthy (trim (editText st)) = true ->
     editModalVisible (after (handleSaveEdit st)) = false
     /\ editInfo (after (handleSaveEdit st)) = None
     /\ editText (after (handleSaveEdit st)) = []
     /\ task (after (handleSaveEdit st)) = task st
     /\ effects (handleSaveEdit st) = [Announce (str "Task updated")])
  /\ (editInfo st = None \/ trim (editText st) = [] ->
      handleSaveEdit st = returned st []).
Proof.
  unfold handleSaveEdit. split.
  - intros Hei Htxt. destruct (editInfo st) as [[i ?]|]; [|done]. by rewrite Htxt.
  - intros [->|Htxt]; [done|]. rewrite Htxt. by destruct (editInfo st) as [[? ?]|].
Qed.

Lemma X12_save_closes_the_modal_when_it_saves_witness :
  (editModalVisible (after (handleSaveEdit oneTaskEditing)) = false
   /\ editInfo (after (handleSaveEdit oneTaskEditing)) = None
   /\ editText (after (handleSaveEdit oneTaskEditing)) = []
   /\ task (after (handleSaveEdit oneTaskEditing)) = task oneTaskEditing
   /\ effects (handleSaveEdit oneTaskEditing) = [Announce (str "Task updated")])
  /\ handleSaveEdit (setEditText (str "  ") oneTaskEditing)
     = returned (setEditText (str "  ") oneTaskEditing) [].
Proof.
  split.
  - apply (X12_save_closes_the_modal_when_it_saves oneTaskEditing);
      vm_compute; [discriminate|reflexivity].
  - apply (X12_save_closes_the_modal_when_it_saves (setEditText (str "  ") oneTaskEditing)).
    right. vm_compute; reflexivity.
Defined.

(** ** Pressing Add again *)

(** X13: a successful add empties the input, so pressing Add again without
    typing adds nothing: one task per text typed. *)
Theorem X13_second_press_adds_nothing
    (txt h : JSString) (now : Z) (sched' : Settled JSString) (now' : Z)
    (st : AppState) :
  truthy (trim txt) = true -> editModalVisible st = false ->
  task (after (add txt (Fulfilled h) now st)) = []
  /\ handleAddTask sched' now' (after (add txt (Fulfilled h) now st))
     = returned (after (add txt (Fulfilled h) now st)) [].
Proof.
  intros Htxt Hmodal. rewrite (add_appends txt h now st Htxt Hmodal). done.
Qed.

Lemma X13_second_press_adds_nothing_witness :
  task (after (add (str "Walk dog") (Fulfilled (str "n2")) 1001 oneTask)) = []
  /\ handleAddTask (Fulfilled (str "n3")) 1002
       (after (add (str "Walk dog") (Fulfilled (str "n2")) 1001 oneTask))
     = returned (after (add (str "Walk dog") (Fulfilled (str "n2")) 1001 oneTask)) [].
Proof.
  apply (X13_second_press_adds_nothing (str "Walk dog") (str "n2") 1001
           (Fulfilled (str "n3")) 1002 oneTask); vm_compute; reflexivity.
Defined.

(** X14: an add that failed because the scheduling call was rejected keeps
    the text in the input, so pressing Add again, the call now fulfilled,
    appends the task with that text. *)
Theorem X14_add_can_be_retried
    (txt reason h : JSString) (now now' : Z) (st : AppState) :
  truthy (trim txt) = true -> editModalVisible st = false ->
  task (after (add txt (Rejected reason) now st)) = txt
  /\ tasks (after (handleAddTask (Fulfilled h) now'
                     (after (add txt (Rejected reason) now st))))
     = tasks st ++ [newTask now' txt h].
Proof.
  intros Htxt Hmodal. unfold add, handleAddTask. simpl.
  rewrite Htxt, Hmodal. simpl. by rewrite Htxt, Hmodal.
Qed.

Lemma X14_add_can_be_retried_witness :
  task (after (add (str "Walk dog") (Rejected (str "denied")) 1001 oneTask))
  = str "Walk dog"
  /\ tasks (after (handleAddTask (Fulfilled (str "n2")) 1002
                     (after (add (str "Walk dog") (Rejected (str "denied")) 1001 oneTask))))
     = tasks oneTask ++ [newTask 1002 (str "Walk dog") (str "n2")].
Proof.
  apply (X14_add_can_be_retried (str "Walk dog") (str "denied") (str "n2") 1001 1002
           oneTask); vm_compute; reflexivity.
Defined.

(** ** What every run keeps *)

Lemma step_texts_not_blank e st :
  texts_not_blank st -> texts_not_blank (after (step e st)).
Proof.
  unfold texts_not_blank. intros Hok. destruct e; simpl; try done.
  - unfold handleAddTask.
    destruct (truthy (trim (task st))) eqn:Htxt; [|done].
    destruct (negb _); [|done]. destruct sched as [h|r]; [|done]. simpl.
    apply Forall_app. split; [done|]. by apply Forall_singleton.
  - unfold handleSaveEdit.
    destruct (editInfo st) as [[i ?]|]; [|done].
    destruct (truthy (trim (editText st))) eqn:Htxt; [|done]. simpl.
    apply Forall_fmap, Forall_forall. intros t Hin. simpl.
    destruct (strict_eq (id t) i); [done|]. by eapply Forall_forall in Hok.
  - assert (forall h, Forall (fun t => truthy (trim (text t)) = true)
                        (toggleAll i h (tasks st))) as Ht.
    { intros h. apply Forall_fmap, Forall_forall. intros t Hin. simpl.
      eapply Forall_forall in Hok; [|exact Hin]. by destruct (strict_eq (id t) i). }
    unfold handleToggleComplete.
    destruct (findTask i (tasks st)) as [t0|]; [|apply Ht].
    destruct (completed t0); [destruct sched|]; simpl; done || apply Ht.
  - apply Forall_forall. intros t [Hin _]%list_elem_of_In%filter_In.
    apply list_elem_of_In in Hin. by eapply Forall_forall in Hok.
  - apply Forall_fmap, Forall_forall. intros t Hin. simpl.
    eapply Forall_forall in Hok; [|exact Hin]. by destruct (strict_eq (id t) i).
Qed.

(** X15: no task ever has a blank text. From a list in which the text of
    every task has a non-empty trim (the empty list in particular), every
    run of settled operations ends in such a list: add and edit both refuse
    a text whose trim is empty, and nothing else writes a text. *)
Theorem X15_texts_are_never_blank (evs : list UIEvent) (st : AppState) :
  texts_not_blank st -> texts_not_blank (run evs st).
Proof.
  revert st. induction evs as [|e evs IH]; intros st Hok; [done|].
  change (run (e :: evs) st) with (run evs (after (step e st))).
  by apply IH, step_texts_not_blank.
Qed.

Lemma X15_texts_are_never_blank_witness : texts_not_blank (run tickingRun initialState).
Proof.
  apply (X15_texts_are_never_blank tickingRun initialState). constructor.
Defined.

(** X16: the only handler that can end in an error is [handleAddTask], and
    only when it got as far as the scheduling call and that call was
    rejected; the state is then the one before the press. Every other event,
    a toggle whose scheduling call is rejected included, returns normally. *)
Theorem X16_only_a_rejected_add_raises (e : UIEvent) (st : AppState) :
  completion (step e st) = Fulfilled tt
  \/ exists reason now,
       e = PressAdd (Rejected reason) now
       /\ truthy (trim (task st)) = true /\ editModalVisible st = false
       /\ completion (step e st) = Rejected reason
       /\ after (step e st) = st.
Proof.
  destruct e; simpl; try by left.
  - unfold handleAddTask.
    destruct (truthy (trim (task st))) eqn:Htxt; [|by left].
    destruct (editModalVisible st) eqn:Hmodal; simpl; [by left|].
    destruct sched as [h|r]; [by left|]. right. by exists r, now.
  - left. unfold handleSaveEdit.
    destruct (editInfo st) as [[? ?]|]; [|done]. by destruct (truthy _).
  - left. unfold handleToggleComplete.
    destruct (findTask i (tasks st)) as [t0|]; [|done].
    destruct (completed t0); [by destruct sched|done].
Qed.

(** X17: ids are never rewritten. Every event but a press of Add and a
    delete leaves the list of ids, and so the number of tasks, as it was. *)
Theorem X17_ids_are_kept (e : UIEvent) (st : AppState) :
  (forall sched now, e <> PressAdd sched now) ->
  (forall i, e <> SwipeDelete i) ->
  ids (after (step e st)) = ids st
  /\ length (tasks (after (step e st))) = length (tasks st).
Proof.
  intros Hadd Hdel.
  assert (ids (after (step e st)) = ids st) as Hids.
  { unfold ids. destruct e; simpl; try done.
    - by destruct (Hadd sched now).
    - unfold handleSaveEdit.
      destruct (editInfo st) as [[i ?]|]; [|done].
      destruct (truthy _); [|done]. simpl.
      apply ids_fmap_same. intros t. by destruct (strict_eq (id t) i).
    - unfold handleToggleComplete.
      destruct (findTask i (tasks st)) as [t0|]; simpl; [|apply ids_toggleAll].
      destruct (completed t0); [destruct sched|]; simpl; done || apply ids_toggleAll.
    - by destruct (Hdel i).
    - apply ids_fmap_same. intros t. by destruct (strict_eq (id t) i). }
  split; [done|].
  apply (f_equal length) in Hids. unfold ids in Hids. by rewrite !length_fmap in Hids.
Qed.

Lemma X17_ids_are_kept_witness :
  ids (after (step (PressToggle (str "1000") (Fulfilled (str "n5"))) twoTasks))
  = ids twoTasks
  /\ length (tasks (after (step (PressToggle (str "1000") (Fulfilled (str "n5"))) twoTasks)))
     = length (tasks twoTasks).
Proof.
  apply (X17_ids_are_kept (PressToggle (str "1000") (Fulfilled (str "n5"))) twoTasks);
    intros; discriminate.
Defined.

Lemma handlesHeld_fmap (f : Task -> Task) (l : list Task) x :
  (forall t, notificationId (f t) = notificationId t) ->
  x ∈ omap notificationId (f <$> l) -> x ∈ omap notificationId l.
Proof.
  intros Hf (t' & (t & -> & Hin)%list_elem_of_fmap & Hx)%list_elem_of_omap.
  apply list_elem_of_omap. exists t. by rewrite <- Hf.
Qed.

Lemma handlesHeld_toggleAll i h l x :
  x ∈ omap notificationId (toggleAll i h l) ->
  x ∈ omap notificationId l \/ h = Some x.
Proof.
  intros (t' & (t & -> & Hin)%list_elem_of_fmap & Hx)%list_elem_of_omap.
  destruct (strict_eq (id t) i); simpl in Hx; [by right|].
  left. apply list_elem_of_omap. by exists t.
Qed.

Lemma step_handlesHeld e st x :
  x ∈ handlesHeld (after (step e st)) ->
  x ∈ handlesHeld st \/ x ∈ handleGiven e st.
Proof.
  unfold handlesHeld, handleGiven, callsScheduler. destruct e; simpl; try by left.
  - unfold handleAddTask.
    destruct (truthy _); [|by left].
    destruct (negb _); [|by left].
    destruct sched as [h|r]; [|by left]. simpl.
    rewrite omap_app, elem_of_app. simpl.
    intros [?|Hx%list_elem_of_singleton]; [by left|]. subst x. right. by left.
  - unfold handleSaveEdit.
    destruct (editInfo st) as [[i ?]|]; [|by left].
    destruct (truthy _); [|by left]. simpl. intros Hx. left.
    revert Hx. apply handlesHeld_fmap. intros t. by destruct (strict_eq (id t) i).
  - unfold handleToggleComplete.
    destruct (findTask i (tasks st)) as [t0|].
    + destruct (completed t0); [destruct sched as [h|r]|]; simpl.
      * intros [?|Heq]%handlesHeld_toggleAll; [by left|].
        simplify_eq. right. by left.
      * by left.
      * intros [?|Heq]%handlesHeld_toggleAll; [by left|done].
    + simpl. intros [?|Heq]%handlesHeld_toggleAll; [by left|done].
  - intros (t & [Hin _]%list_elem_of_In%filter_In & Hx)%list_elem_of_omap.
    left. apply list_elem_of_omap. exists t. by rewrite list_elem_of_In.
  - intros Hx. left. revert Hx. apply handlesHeld_fmap.
    intros t. by destruct (strict_eq (id t) i).
Qed.

(** X18: the application never makes up a notification handle. After every
    run, each handle a task holds was held by a task at the start or was
    returned by a scheduling call that a handler of the run made and that
    was fulfilled. *)
Theorem X18_handles_come_from_the_scheduler
    (evs : list UIEvent) (st : AppState) (x : JSString) :
  x ∈ handlesHeld (run evs st) -> x ∈ handlesHeld st \/ x ∈ handlesGiven evs st.
Proof.
  revert st. induction evs as [|e evs IH]; intros st Hx; [by left|].
  change (run (e :: evs) st) with (run evs (after (step e st))) in Hx.
  simpl. rewrite elem_of_app.
  destruct (IH _ Hx) as [Hheld|?]; [|by right; right].
  destruct (step_handlesHeld e st x Hheld); [by left|by right; left].
Qed.

Lemma X18_handles_come_from_the_scheduler_witness :
  handlesGiven tickingRun initialState = [str "n1"; str "n2"; str "n3"]
  /\ (str "n3" ∈ handlesHeld initialState
      \/ str "n3" ∈ handlesGiven tickingRun initialState).
Proof.
  split; [reflexivity|].
  apply (X18_handles_come_from_the_scheduler tickingRun initialState (str "n3")).
  vm_compute. left.
Defined.

(** A toggle to complete makes no scheduling call: the answer the service
    would have given is no handle of the run. *)
Lemma handlesGiven_ignores_unasked :
  handlesGiven [PressToggle (str "1000") (Fulfilled (str "phantom"))] oneTask = [].
Proof. reflexivity. Qed.

(** ** Calls in flight *)

(** A handler that settles before the next event is the handler up to its
    call followed by the settling of the call, nothing happening between. *)
Lemma handleAddTask_settled sched now st :
  match handleAddTask_begin st with
  | (o, Some p) =>
      after (handleAddTask sched now st) = after (settle p sched now (after o))
      /\ effects (handleAddTask sched now st)
         = effects o ++ effects (settle p sched now (after o))
      /\ completion (handleAddTask sched now st)
         = completion (settle p sched now (after o))
  | (o, None) => handleAddTask sched now st = o
  end.
Proof.
  unfold handleAddTask_begin, handleAddTask.
  destruct (truthy _); [|done]. destruct (negb _); [|done]. by destruct sched.
Qed.

Lemma handleToggleComplete_settled i sched now st :
  match handleToggleComplete_begin i st with
  | (o, Some p) =>
      after (handleToggleComplete i sched st) = after (settle p sched now (after o))
      /\ effects (handleToggleComplete i sched st)
         = effects o ++ effects (settle p sched now (after o))
      /\ completion (handleToggleComplete i sched st)
         = completion (settle p sched now (after o))
  | (o, None) => handleToggleComplete i sched st = o
  end.
Proof.
  unfold handleToggleComplete_begin, handleToggleComplete.
  destruct (findTask i (tasks st)) as [t0|]; [|done].
  destruct (completed t0); [|done]. by destruct sched.
Qed.

(** X19: two presses of Add before the first scheduling call has settled
    leave one task, not two. Both handlers ask for a reminder, both append
    to the list they saw when pressed, and the second overwrites the first:
    the list is the one before plus the task of the second call, and the
    handle of the first call is held by no task unless it was held before
    or is also the answer to the second call. *)
Theorem X19_double_press_in_flight
    (st : AppState) (o : Outcome) (p : InFlight)
    (h1 h2 : JSString) (now1 now2 : Z) :
  handleAddTask_begin st = (o, Some p) ->
  effects o = [ScheduleNotification (scheduleRequest (task st))]
  /\ tasks (after (settle p (Fulfilled h2) now2
                     (after (settle p (Fulfilled h1) now1 st))))
     = tasks st ++ [newTask now2 (task st) h2]
  /\ (h1 <> h2 -> h1 ∉ handlesHeld st ->
      h1 ∉ handlesHeld (after (settle p (Fulfilled h2) now2
                                 (after (settle p (Fulfilled h1) now1 st))))).
Proof.
  unfold handleAddTask_begin.
  destruct (truthy _); [|done]. destruct (negb _); [|done].
  intros [= <- <-]. split; [done|]. split; [done|].
  intros Hne Hnot. unfold handlesHeld. simpl.
  rewrite omap_app, elem_of_app. simpl.
  intros [?|Hx%list_elem_of_singleton]; [by apply Hnot|done].
Qed.

Lemma X19_double_press_in_flight_witness :
  tasks (after (settle (AddInFlight (setTask (str "Walk dog") oneTask))
                  (Fulfilled (str "n3")) 1002
                  (after (settle (AddInFlight (setTask (str "Walk dog") oneTask))
                            (Fulfilled (str "n2")) 1001
                            (setTask (str "Walk dog") oneTask)))))
  = tasks oneTask ++ [newTask 1002 (str "Walk dog") (str "n3")].
Proof.
  exact (proj1 (proj2 (X19_double_press_in_flight
                         (setTask (str "Walk dog") oneTask) _ _
                         (str "n2") (str "n3") 1001 1002 eq_refl))).
Defined.

(** X20: what is done to the list while a scheduling call is in flight is
    lost when the call is fulfilled. Whatever events happen between the
    press (Add, or the toggle of a completed task) and the answer, the list
    after the answer is the one the handler would have left had nothing
    happened in between: a task deleted meanwhile is back, a text edited
    meanwhile is the old one. When the call is rejected, the state of the
    moment is kept instead. *)
Theorem X20_changes_during_a_call_are_lost
    (i : JSString) (st : AppState) (o : Outcome) (p : InFlight)
    (evs : list UIEvent) (h reason : JSString) (now : Z) :
  handleAddTask_begin st = (o, Some p)
  \/ handleToggleComplete_begin i st = (o, Some p) ->
  tasks (after (settle p (Fulfilled h) now (run evs st)))
  = tasks (after (settle p (Fulfilled h) now st))
  /\ after (settle p (Rejected reason) now (run evs st)) = run evs st.
Proof.
  intros [Hb|Hb].
  - unfold handleAddTask_begin in Hb.
    destruct (truthy _); [|done]. destruct (negb _); [|done].
    by injection Hb as <- <-.
  - unfold handleToggleComplete_begin in Hb.
    destruct (findTask i (tasks st)) as [t0|]; [|done].
    destruct (completed t0); [|done]. by injection Hb as <- <-.
Qed.

Lemma X20_changes_during_a_call_are_lost_witness :
  length (tasks (run [SwipeDelete (str "1001")] twoTasksOneDone)) = 1%nat
  /\ tasks (after (settle (ToggleInFlight twoTasksOneDone (str "1000"))
                     (Fulfilled (str "n5")) 1003
                     (run [SwipeDelete (str "1001")] twoTasksOneDone)))
     = tasks (after (settle (ToggleInFlight twoTasksOneDone (str "1000"))
                       (Fulfilled (str "n5")) 1003 twoTasksOneDone))
  /\ length (tasks (after (settle (ToggleInFlight twoTasksOneDone (str "1000"))
                             (Fulfilled (str "n5")) 1003
                             (run [SwipeDelete (str "1001")] twoTasksOneDone))))
     = 2%nat.
Proof.
  split; [reflexivity|].
  assert (tasks (after (settle (ToggleInFlight twoTasksOneDone (str "1000"))
                          (Fulfilled (str "n5")) 1003
                          (run [SwipeDelete (str "1001")] twoTasksOneDone)))
          = tasks (after (settle (ToggleInFlight twoTasksOneDone (str "1000"))
                            (Fulfilled (str "n5")) 1003 twoTasksOneDone))) as H.
  { apply (X20_changes_during_a_call_are_lost (str "1000") twoTasksOneDone
             (returned twoTasksOneDone
                [ScheduleNotification (scheduleRequest (str "Buy milk"))])
             (ToggleInFlight twoTasksOneDone (str "1000"))
             [SwipeDelete (str "1001")] (str "n5") [] 1003).
    right. reflexivity. }
  split; [exact H|]. rewrite H. reflexivity.
Defined.

(** ** Loading and saving *)

(** X21: [loadTasks] never fails and writes nothing but the list of tasks.
    In every state, whatever the store and [JSON.parse] do, its promise is
    fulfilled and the other cells are as they were; the list changes only to
    what [JSON.parse] made of a stored string that is not empty; and an
    error is logged only when the read was rejected or [JSON.parse] threw. *)
Theorem X21_load_is_safe
    (JSON_parse : JSString -> option (list Task))
    (item : Settled (option JSString)) (st : AppState) :
  completion (loadTasks JSON_parse item st) = Fulfilled tt
  /\ setTasks (tasks st) (after (loadTasks JSON_parse item st)) = st
  /\ (tasks (after (loadTasks JSON_parse item st)) <> tasks st ->
      exists s, item = Fulfilled (Some s) /\ s <> []
                /\ JSON_parse s = Some (tasks (after (loadTasks JSON_parse item st))))
  /\ (effects (loadTasks JSON_parse item st) <> [] ->
      (exists reason, item = Rejected reason)
      \/ exists s, item = Fulfilled (Some s) /\ JSON_parse s = None).
Proof.
  destruct st as [t l ei vis et]. unfold loadTasks.
  destruct item as [[s|]|r]; simpl; [|done|].
  - destruct s as [|c s]; simpl; [done|].
    destruct (JSON_parse (c :: s)) as [l'|] eqn:Hparse; simpl.
    + repeat split; [|done]. intros _. by exists (c :: s).
    + repeat split; [done|]. intros _. right. by exists (c :: s).
  - repeat split; [done|]. intros _. left. by exists r.
Qed.

(** X22: what [saveTasks] stores, [loadTasks] reads back. With a store that
    returns what was put under a key, and a list of tasks that [JSON.parse]
    gets back from its [JSON.stringify] (which is never the empty string), a
    load after a save gives the saved list, in whatever state it is done:
    the two functions use the same key. *)
Theorem X22_load_after_save
    (JSON_stringify : list Task -> JSString)
    (JSON_parse : JSString -> option (list Task))
    (disk : Storage) (st st' : AppState) :
  JSON_parse (JSON_stringify (tasks st)) = Some (tasks st) ->
  JSON_stringify (tasks st) <> [] ->
  tasks (after (loadTasks JSON_parse
                  (Storage_getItem loadTasks_key
                     (Storage_setItem (fst (saveTasks_request JSON_stringify st))
                        (snd (saveTasks_request JSON_stringify st)) disk))
                  st'))
  = tasks st.
Proof.
  intros Hround Hne.
  unfold Storage_getItem, Storage_setItem, loadTasks_key, saveTasks_request.
  cbn [fst snd]. rewrite (proj2 (strict_eq_true (str "tasks") (str "tasks")) eq_refl).
  unfold loadTasks.
  destruct (JSON_stringify (tasks st)) as [|c s] eqn:Hs; [done|].
  cbn [truthy]. by rewrite Hround.
Qed.

Lemma X22_load_after_save_witness :
  tasks (after (loadTasks
                  (fun s => if strict_eq s (str "[]") then Some [] else None)
                  (Storage_getItem loadTasks_key
                     (Storage_setItem
                        (fst (saveTasks_request (fun _ => str "[]") initialState))
                        (snd (saveTasks_request (fun _ => str "[]") initialState))
                        (fun _ => None)))
                  oneTask))
  = tasks initialState.
Proof.
  apply (X22_load_after_save (fun _ => str "[]")
           (fun s => if strict_eq s (str "[]") then Some [] else None)
           (fun _ => None) initialState oneTask).
  - reflexivity.
  - discriminate.
Defined.

(** ** Colours and set-up *)

(** X23: [getPriorityColor] gives the three priorities three different
    colours, none of them the fallback colour, and gives the fallback
    colour to every string that is not one of the three priorities, a
    priority written in capitals included. *)
Theorem X23_priority_colours (p q : Priority) (s : JSString) :
  (getPriorityColor (Priority_string p) = getPriorityColor (Priority_string q)
   -> p = q)
  /\ getPriorityColor (Priority_string p) <> str "#ccc"
  /\ ((forall r, s <> Priority_string r) -> getPriorityColor s = str "#ccc")
  /\ getPriorityColor (str "HIGH") = str "#ccc".
Proof.
  split; [|split; [|split]].
  - destruct p, q; vm_compute; intros H; done || discriminate H.
  - destruct p; vm_compute; discriminate.
  - intros Hs. unfold getPriorityColor.
    destruct (strict_eq s (str "high")) eqn:H1;
      [apply strict_eq_true in H1; by destruct (Hs high)|].
    destruct (strict_eq s (str "medium")) eqn:H2;
      [apply strict_eq_true in H2; by destruct (Hs medium)|].
    destruct (strict_eq s (str "low")) eqn:H3;
      [apply strict_eq_true in H3; by destruct (Hs low)|].
    done.
  - reflexivity.
Qed.


(** ** Edits and reminders *)



